(** * Groq model selection script ([set_groq_model.py])

    A shallow embedding of the configuration script: the values produced
    by [json.load], the process environment, the log and the single HTTP
    request are explicit, and the four functions of the script together
    with its [__main__] block are functions over that state. *)

From Stdlib Require Import ZArith List String Ascii Floats.PrimFloat.
From stdpp Require Import gmap strings list.

Set Warnings "-register-all".
Local Open Scope string_scope.

(** ** Values produced by [json.load]

    A JSON object is kept as the sequence of its members in document
    order; the Python [dict] built from it binds each key to its last
    occurrence.  Integers are unbounded and non-integral numbers are
    floats, as in Python. *)

Inductive json : Type :=
| JNull
| JBool (b : bool)
| JInt (z : Z)
| JFloat (f : float)
| JStr (s : string)
| JArr (items : list json)
| JObj (members : list (string * json)).

(** [bool(v)]: the truth value Python gives to a decoded value. *)
Definition truthy (v : json) : bool :=
  match v with
  | JNull => false
  | JBool b => b
  | JInt z => negb (z =? 0)%Z
  | JFloat f => negb (PrimFloat.eqb f 0%float)
  | JStr s => negb (s =? "")
  | JArr items => match items with [] => false | _ :: _ => true end
  | JObj members => match members with [] => false | _ :: _ => true end
  end.

(** [d.get(key)] on the dict built from [members]: the last binding wins,
    [None] when the key is absent. *)
Fixpoint dict_get (key : string) (members : list (string * json)) : option json :=
  match members with
  | [] => None
  | (k, v) :: rest =>
      match dict_get key rest with
      | Some v' => Some v'
      | None => if k =? key then Some v else None
      end
  end.

(** Keys of the dict in insertion order (first occurrence of each key). *)
Fixpoint dict_keys (members : list (string * json)) (seen : list string) : list string :=
  match members with
  | [] => []
  | (k, _) :: rest =>
      if existsb (String.eqb k) seen then dict_keys rest seen
      else k :: dict_keys rest (k :: seen)
  end.

(** [isinstance(v, dict)]. *)
Definition is_dict (v : json) : bool :=
  match v with JObj _ => true | _ => false end.

(** [v.get("id")] for a value already known to be a dict; Python's [None]
    is [JNull]. *)
Definition get_id (v : json) : json :=
  match v with
  | JObj members => default JNull (dict_get "id" members)
  | _ => JNull
  end.

(** [model == v] for a string [model]: a string equals only a string with
    the same characters. *)
Definition str_eq (model : string) (v : json) : bool :=
  match v with JStr s => model =? s | _ => false end.

(** [model in available] on a list. *)
Definition py_in (model : string) (available : list json) : bool :=
  existsb (str_eq model) available.

(** ** Exceptions, log records and the process state *)

(** The pieces of an f-string: literal text and interpolated lists. *)
Inductive fragment : Type :=
| Lit (text : string)
| Interp (values : list json).

(** Exceptions, all of them subclasses of [Exception].  The named ones are
    those the script raises or meets by name; [OtherException] stands for
    an exception of any other class, which no [except] clause of the
    fetcher matches. *)
Inductive Exn : Type :=
| RuntimeError (message : list fragment)
| HTTPError (code : Z) (fp : option string) (descr : string)
| URLError (reason : string)
| JSONDecodeError
| AttributeError
| TypeError
| ValueError
| UnicodeDecodeError
| RecursionError
| OtherException (class_name : string).

Inductive LogCall : Type := info | error | exception.

Inductive Arg : Type :=
| ArgStr (s : string)
| ArgInt (z : Z)
| ArgList (values : list json)
| ArgExn (e : Exn).

Record Request : Type := mkRequest {
  url : string;
  headers : list (string * string);
  method : string
}.

(** What [urlopen(request)] followed by [json.load(response)] does: one of
    the two exceptions of [urllib.error], a body [json.load] rejects as not
    being JSON, a decoded value, or any other exception raised on the way.
    [ReplyOther] covers a request [urlopen] refuses before anything is
    sent ([ValueError] for a header value holding a line break, or one
    that Latin-1 cannot encode), an exception of [http.client], and what
    [json.load] raises besides [JSONDecodeError] ([UnicodeDecodeError] for
    a body that is not UTF-8, [RecursionError] for one nested too
    deeply). *)
Inductive Reply : Type :=
| ReplyHTTPError (code : Z) (fp : option string) (descr : string)
| ReplyURLError (reason : string)
| ReplyMalformed
| ReplyJson (data : json)
| ReplyOther (e : Exn).

(** Observable effects, in the order they happen: a call of a method of
    the logger, a call of [urlopen] with a request (whether anything
    reaches the network is decided inside [urlopen], see [Reply]), and a
    completed write of a setting. *)
Inductive Event : Type :=
| EvLog (call : LogCall) (format : string) (args : list Arg)
| EvRequest (request : Request)
| EvSetenv (name value : string).

Record World : Type := mkWorld {
  environ : gmap string string;
  network : Request -> Reply;
  trace : list Event
}.

Inductive Outcome (A : Type) : Type :=
| Ok (a : A)
| Raise (e : Exn).
Arguments Ok {A} a.
Arguments Raise {A} e.

(** Computations of the script: state passing with exceptions. *)
Definition M (A : Type) : Type := World -> Outcome A * World.

Definition ret {A} (a : A) : M A := fun w => (Ok a, w).

Definition bind {A B} (c : M A) (k : A -> M B) : M B :=
  fun w =>
    match c w with
    | (Ok a, w') => k a w'
    | (Raise e, w') => (Raise e, w')
    end.

Definition raise {A} (e : Exn) : M A := fun w => (Raise e, w).

Notation "x <-- c ;; k" := (bind c (fun x => k))
  (at level 200, c at level 99, right associativity, only parsing).
Notation "c ;;; k" := (bind c (fun _ => k))
  (at level 200, right associativity, only parsing).

(** The world after one more observable effect. *)
Definition with_event (w : World) (ev : Event) : World :=
  mkWorld (environ w) (network w) (trace w ++ [ev]).

Definition emit (ev : Event) : M unit :=
  fun w => (Ok tt, with_event w ev).

Definition logger (call : LogCall) (format : string) (args : list Arg) : M unit :=
  emit (EvLog call format args).

(** [os.getenv(name)]. *)
Definition getenv (name : string) : M (option string) :=
  fun w => (Ok (environ w !! name), w).

(** A NUL character in a string. *)
Definition has_nul (s : string) : bool :=
  existsb (Ascii.eqb (ascii_of_nat 0)) (list_ascii_of_string s).

(** Names [os.putenv] refuses: the empty name and a name holding [=]. *)
Definition illegal_name (name : string) : bool :=
  (name =? "") || existsb (Ascii.eqb "="%char) (list_ascii_of_string name).

(** [os.environ[name] = value]: the environment is a finite map from
    names to values.  The write raises [ValueError], and changes nothing,
    when the name or the value holds a NUL character or the name is one
    [os.putenv] refuses. *)
Definition setenv (name value : string) : M unit :=
  fun w =>
    if has_nul name || has_nul value || illegal_name name then
      (Raise ValueError, w)
    else
      (Ok tt, mkWorld (<[name := value]> (environ w)) (network w)
                      (trace w ++ [EvSetenv name value])).

(** [urlopen(request)] and [json.load(response)]. *)
Definition urlopen_json (request : Request) : M json :=
  fun w =>
    let w' := with_event w (EvRequest request) in
    match network w request with
    | ReplyHTTPError code fp descr => (Raise (HTTPError code fp descr), w')
    | ReplyURLError reason => (Raise (URLError reason), w')
    | ReplyMalformed => (Raise JSONDecodeError, w')
    | ReplyJson data => (Ok data, w')
    | ReplyOther e => (Raise e, w')
    end.

(** [try: c except ...: handler; raise]: the handler runs for the
    exceptions it returns [Some] for, and the exception is raised again. *)
Definition try_reraise {A} (c : M A) (handler : Exn -> option (M unit)) : M A :=
  fun w =>
    match c w with
    | (Ok a, w') => (Ok a, w')
    | (Raise e, w') =>
        match handler e with
        | Some h =>
            match h w' with
            | (Ok _, w'') => (Raise e, w'')
            | (Raise e', w'') => (Raise e', w'')
            end
        | None => (Raise e, w')
        end
    end.

(** ** The script *)

Definition SUPPORTED_MODELS : list string :=
  [ "llama-3.3-70b-versatile";
    "llama-3.1-8b-instant";
    "qwen/qwen3-32b" ].

Definition GROQ_API_URL : string := "https://api.groq.com/openai/v1/models".

(** The elements a [for] loop draws from a decoded value: the items of a
    list, the characters of a string, the keys of a dict; anything else is
    not iterable. *)
Definition py_iter (v : json) : M (list json) :=
  match v with
  | JArr items => ret items
  | JStr s => ret (map (fun c => JStr (String c "")) (list_ascii_of_string s))
  | JObj members => ret (map JStr (dict_keys members []))
  | _ => raise TypeError
  end.

(** [data.get("data", [])]: only a dict has [get]. *)
Definition get_data (data : json) : M json :=
  match data with
  | JObj members => ret (default (JArr []) (dict_get "data" members))
  | _ => raise AttributeError
  end.

Definition fetch_available_models (api_key : string) : M (list json) :=
  let headers :=
    [ ("Authorization", "Bearer " ++ api_key);
      ("Content-Type", "application/json") ] in
  let request := mkRequest GROQ_API_URL headers "GET" in
  data <-- try_reraise (urlopen_json request)
             (fun exc =>
                match exc with
                | HTTPError code fp descr =>
                    let message := match fp with Some body => body | None => descr end in
                    Some (logger error "Erreur HTTP %s : %s" [ArgInt code; ArgStr message])
                | URLError reason =>
                    Some (logger error "Erreur réseau : %s" [ArgStr reason])
                | _ => None
                end) ;;
  field <-- get_data data ;;
  entries <-- py_iter field ;;
  let models :=
    map get_id
        (List.filter (fun model => is_dict model && truthy (get_id model)) entries) in
  logger info "Modèles récupérés : %s" [ArgList models] ;;;
  ret models.

(** The request [fetch_available_models] builds for a credential. *)
Definition request_of (api_key : string) : Request :=
  mkRequest GROQ_API_URL
    [ ("Authorization", "Bearer " ++ api_key);
      ("Content-Type", "application/json") ]
    "GET".

(** The world after [urlopen] was called with the request, and after the
    fetcher logged the identifiers it kept. *)
Definition requested (w : World) (api_key : string) : World :=
  with_event w (EvRequest (request_of api_key)).

Definition fetched (w : World) (models : list json) : World :=
  with_event w (EvLog info "Modèles récupérés : %s" [ArgList models]).

(** The entries the specification keeps, in its words: an entry that is a
    mapping and carries an identifier field with a true value contributes
    that value, any other entry contributes nothing. *)
Definition usable_id (entry : json) : option json :=
  match entry with
  | JObj members =>
      match dict_get "id" members with
      | Some v => if truthy v then Some v else None
      | None => None
      end
  | _ => None
  end.

Definition is_str (v : json) : bool :=
  match v with JStr _ => true | _ => false end.

(** The loop of [select_compatible_model] over a preference list. *)
Fixpoint select_in (supported : list string) (available : list json)
  : M (option string) :=
  match supported with
  | [] => ret None
  | model :: rest =>
      if py_in model available then
        logger info "Modèle compatible trouvé : %s" [ArgStr model] ;;;
        ret (Some model)
      else select_in rest available
  end.

Definition select_compatible_model (available : list json) : M (option string) :=
  select_in SUPPORTED_MODELS available.

(** The world the selector leaves after it found [model]. *)
Definition found (w : World) (model : string) : World :=
  with_event w (EvLog info "Modèle compatible trouvé : %s" [ArgStr model]).

Definition ensure_env_model (model_name : string) : M unit :=
  current <-- getenv "GROQ_CHAT_MODEL" ;;
  let update :=
    setenv "GROQ_CHAT_MODEL" model_name ;;;
    logger info "GROQ_CHAT_MODEL mis à jour → %s" [ArgStr model_name] in
  match current with
  | Some c =>
      if c =? model_name then
        logger info "GROQ_CHAT_MODEL déjà défini sur %s" [ArgStr c]
      else update
  | None => update
  end.

(** The only event of a call that finds the setting already equal to
    [model_name]. *)
Definition noop_log (model_name : string) : Event :=
  EvLog info "GROQ_CHAT_MODEL déjà défini sur %s" [ArgStr model_name].

(** The world after a call that had to write the setting. *)
Definition updated (w : World) (model_name : string) : World :=
  mkWorld (<["GROQ_CHAT_MODEL" := model_name]> (environ w)) (network w)
          ((trace w ++ [EvSetenv "GROQ_CHAT_MODEL" model_name])
             ++ [EvLog info "GROQ_CHAT_MODEL mis à jour → %s" [ArgStr model_name]]).

(** [not o] for an optional string: [None] and the empty string are false. *)
Definition py_not (o : option string) : bool :=
  match o with
  | None => true
  | Some s => s =? ""
  end.

Definition newline : string := String (ascii_of_nat 10) "".

Definition missing_credential : Exn :=
  RuntimeError [Lit "❌ GROQ_API_KEY n’est pas défini."].

Definition no_compatible_model (available : list json) : Exn :=
  RuntimeError
    [ Lit "❌ Aucun des modèles supportés ";
      Interp (map JStr SUPPORTED_MODELS);
      Lit (" n’est disponible." ++ newline ++ "Modèles retournés par Groq : ");
      Interp available ].

Definition main : M unit :=
  api_key <-- getenv "GROQ_API_KEY" ;;
  if py_not api_key then raise missing_credential
  else
    logger info "Récupération des modèles Groq…" [] ;;;
    available <-- fetch_available_models (default "" api_key) ;;
    chosen <-- select_compatible_model available ;;
    if py_not chosen then raise (no_compatible_model available)
    else
      ensure_env_model (default "" chosen) ;;;
      logger info "✅ Modèle sélectionné avec succès !" [].

(** The [__main__] block: exit status and final state of a run. *)
Definition run_module (w : World) : Z * World :=
  match main w with
  | (Ok _, w') => (0%Z, w')
  | (Raise exc, w') =>
      let '(_, w'') :=
        logger exception "❌ Échec du réglage du modèle Groq : %s" [ArgExn exc] w' in
      (1%Z, w'')
  end.

(** The events of the three log calls of [main] and of the [__main__]
    block. *)
Definition fetching_log : Event :=
  EvLog info "Récupération des modèles Groq…" [].

Definition success_log : Event :=
  EvLog info "✅ Modèle sélectionné avec succès !" [].

Definition failure_log (exc : Exn) : Event :=
  EvLog exception "❌ Échec du réglage du modèle Groq : %s" [ArgExn exc].

Definition is_request (ev : Event) : bool :=
  match ev with EvRequest _ => true | _ => false end.

(** The events only [ensure_env_model] produces: a write of the setting, or
    one of its two log lines. *)
Definition applier_event (ev : Event) : bool :=
  match ev with
  | EvSetenv _ _ => true
  | EvLog _ format _ =>
      (format =? "GROQ_CHAT_MODEL déjà défini sur %s")
      || (format =? "GROQ_CHAT_MODEL mis à jour → %s")
  | EvRequest _ => false
  end.

(** [w'] continues [w] with the events [evs]. *)
Definition extends (w w' : World) (evs : list Event) : Prop :=
  trace w' = (trace w ++ evs)%list.

(** [w'] continues [w] without any event of the applier and with the
    environment and the network of [w]. *)
Definition quiet (w w' : World) : Prop :=
  environ w' = environ w /\ network w' = network w /\
  exists evs, extends w w' evs /\ existsb applier_event evs = false.

Definition quietly {A} (c : M A) : Prop := forall w, quiet w (snd (c w)).

(** A payload for examples: two usable entries among entries without a
    usable identifier. *)
Definition sample_entries : list json :=
  [ JObj [("id", JStr "qwen/qwen3-32b"); ("owned_by", JStr "Alibaba")];
    JStr "stray";
    JObj [("object", JStr "model")];
    JObj [("id", JStr "")];
    JObj [("id", JStr "llama-3.1-8b-instant")] ].

Definition sample_members : list (string * json) :=
  [("object", JStr "list"); ("data", JArr sample_entries)].

(** A world for examples: given settings, a constant reply, empty trace. *)
Definition world_of (settings : list (string * string)) (reply : Reply) : World :=
  mkWorld (list_to_map settings) (fun _ => reply) [].

(** Worlds for examples, all with a credential: the endpoint lists the
    sample payload, two models outside the preference list, or an object
    without a [data] field. *)
Definition world_with_match : World :=
  world_of [("GROQ_API_KEY", "gsk_key")] (ReplyJson (JObj sample_members)).

Definition world_without_match : World :=
  world_of [("GROQ_API_KEY", "gsk_key")]
    (ReplyJson (JObj [("data", JArr [JObj [("id", JStr "X")]; JObj [("id", JStr "Y")]])])).

Definition world_without_data : World :=
  world_of [("GROQ_API_KEY", "gsk_key")]
    (ReplyJson (JObj [("error", JObj [("message", JStr "maintenance")])])).

(** The error records of the two [except] clauses of the fetcher: the
    HTTP one carries the status code and the body of the error response,
    or the text of the exception when there is no body. *)
Definition http_error_log (code : Z) (fp : option string) (descr : string) : Event :=
  EvLog error "Erreur HTTP %s : %s"
        [ArgInt code; ArgStr (match fp with Some body => body | None => descr end)].

Definition url_error_log (reason : string) : Event :=
  EvLog error "Erreur réseau : %s" [ArgStr reason].

Definition is_setenv (ev : Event) : bool :=
  match ev with EvSetenv _ _ => true | _ => false end.

Definition is_log (ev : Event) : bool :=
  match ev with EvLog _ _ _ => true | _ => false end.

(** [isinstance(e, URLError)]: [HTTPError] is a subclass of [URLError]. *)
Definition is_url_error (e : Exn) : bool :=
  match e with HTTPError _ _ _ | URLError _ => true | _ => false end.

(** Decoded values a [for] loop cannot draw from. *)
Definition not_iterable (v : json) : bool :=
  match v with JNull | JBool _ | JInt _ | JFloat _ => true | _ => false end.

(** Worlds for examples with a credential and a failing endpoint. *)
Definition world_http_error : World :=
  world_of [("GROQ_API_KEY", "gsk_key"); ("GROQ_CHAT_MODEL", "old-model")]
    (ReplyHTTPError 401 (Some "{error: invalid key}") "HTTP Error 401: Unauthorized").

Definition world_url_error : World :=
  world_of [("GROQ_API_KEY", "gsk_key")] (ReplyURLError "Name or service not known").

(** The sample payload with its entries listed in the opposite order. *)
Definition sample_members_reversed : list (string * json) :=
  [("object", JStr "list"); ("data", JArr (rev sample_entries))].

Definition world_with_match_reversed : World :=
  world_of [("GROQ_API_KEY", "gsk_key")] (ReplyJson (JObj sample_members_reversed)).


(** ** The selector *)

Section Selector.

Implicit Types (supported : list string) (available : list json) (w : World).

Lemma str_eq_true model v : str_eq model v = true <-> v = JStr model.
Proof.
  destruct v; simpl; try (split; [discriminate | congruence]).
  rewrite String.eqb_eq. split; congruence.
Qed.

Lemma py_in_In model available :
  py_in model available = true <-> In (JStr model) available.
Proof.
  unfold py_in. rewrite existsb_exists. split.
  - intros (v & Hv & Heq). apply str_eq_true in Heq. now subst.
  - intros Hin. exists (JStr model). split; [assumption | now apply str_eq_true].
Qed.

Lemma py_in_not_In model available :
  py_in model available = false <-> ~ In (JStr model) available.
Proof.
  rewrite <- py_in_In. destruct (py_in model available); split; congruence.
Qed.

Lemma select_in_miss supported available w :
  (forall m, In m supported -> py_in m available = false) ->
  select_in supported available w = (Ok None, w).
Proof.
  induction supported as [|model rest IH]; intros Hmiss; simpl.
  - reflexivity.
  - rewrite (Hmiss model) by now left.
    apply IH. intros m Hm. apply Hmiss. now right.
Qed.

Lemma select_in_hit supported available w :
  (exists m, In m supported /\ py_in m available = true) ->
  exists i m,
    supported !! i = Some m /\ py_in m available = true /\
    (forall j m', j < i -> supported !! j = Some m' -> py_in m' available = false) /\
    select_in supported available w = (Ok (Some m), found w m).
Proof.
  induction supported as [|model rest IH]; intros (m & Hm & Hav).
  - destruct Hm.
  - simpl. destruct (py_in model available) eqn:Hhead.
    + exists 0, model. repeat split; try assumption. intros j m' Hj. lia.
    + destruct Hm as [-> | Hm]; [congruence |].
      destruct IH as (i & m0 & Hi & Hav0 & Hmin & Hrun); [now exists m |].
      exists (S i), m0. repeat split; try assumption.
      intros [|j] m' Hj Hlook; simpl in Hlook.
      * now inversion Hlook; subst.
      * apply (Hmin j); [lia | assumption].
Qed.

Lemma select_in_cases supported available w :
  select_in supported available w = (Ok None, w) \/
  exists m, In m supported /\ py_in m available = true /\
            select_in supported available w = (Ok (Some m), found w m).
Proof.
  induction supported as [|model rest IH]; simpl.
  - now left.
  - destruct (py_in model available) eqn:Hhead.
    + right. exists model. repeat split; [now left | assumption].
    + destruct IH as [IH | (m & Hm & Hav & Hrun)]; [now left |].
      right. exists m. repeat split; [now right | assumption | assumption].
Qed.

Lemma select_in_ext supported available available' w w' :
  (forall m, py_in m available = py_in m available') ->
  fst (select_in supported available w) = fst (select_in supported available' w').
Proof.
  intros Hsame. induction supported as [|model rest IH]; simpl.
  - reflexivity.
  - rewrite <- (Hsame model). now destruct (py_in model available).
Qed.

Lemma py_in_same_members available available' :
  (forall v, In v available <-> In v available') ->
  forall m, py_in m available = py_in m available'.
Proof.
  intros Hsame m.
  destruct (py_in m available) eqn:H1, (py_in m available') eqn:H2; try reflexivity.
  - apply py_in_In, Hsame, py_in_In in H1. congruence.
  - apply py_in_In, Hsame, py_in_In in H2. congruence.
Qed.

End Selector.

(** C1. When the available sequence holds at least one entry of the
    preference list, the selector returns the entry of lowest index in the
    preference list among those available: it sits at some index [i], is
    available, and no entry at a smaller index is available.  The result
    is the same for every available sequence with the same members, so the
    positions inside the available sequence play no role.  With the
    preference list A, B, C and the available sequence C, B the result
    is B.  [select_compatible_model] is [select_in SUPPORTED_MODELS]. *)
Theorem select_lowest_preference_index
    (supported : list string) (available : list json) (w : World) :
  (exists m, In m supported /\ In (JStr m) available) ->
  exists i m,
    supported !! i = Some m /\ In (JStr m) available /\
    (forall j m', j < i -> supported !! j = Some m' -> ~ In (JStr m') available) /\
    fst (select_in supported available w) = Ok (Some m) /\
    (forall available' w',
        (forall v, In v available <-> In v available') ->
        fst (select_in supported available' w') = Ok (Some m)) /\
    fst (select_in ["A"; "B"; "C"] [JStr "C"; JStr "B"] w) = Ok (Some "B").
Proof.
  intros (m0 & Hsup & Hav).
  destruct (select_in_hit supported available w) as (i & m & Hi & Hin & Hmin & Hrun).
  { exists m0. split; [assumption | now apply py_in_In]. }
  exists i, m. split; [assumption |].
  split; [now apply py_in_In |].
  split. { intros j m' Hj Hlook. apply py_in_not_In. now apply (Hmin j). }
  split. { now rewrite Hrun. }
  split; [| reflexivity].
  intros available' w' Hsame.
  rewrite <- (select_in_ext supported available available' w w')
    by now apply py_in_same_members.
  now rewrite Hrun.
Qed.

Lemma select_lowest_preference_index_witness :
  let available := [JStr "qwen/qwen3-32b"; JInt 7; JStr "llama-3.1-8b-instant"] in
  let w := world_of [] ReplyMalformed in
  (exists m, In m SUPPORTED_MODELS /\ In (JStr m) available) /\
  exists i m,
    SUPPORTED_MODELS !! i = Some m /\ In (JStr m) available /\
    (forall j m', j < i -> SUPPORTED_MODELS !! j = Some m' -> ~ In (JStr m') available) /\
    fst (select_compatible_model available w) = Ok (Some m) /\
    (forall available' w',
        (forall v, In v available <-> In v available') ->
        fst (select_compatible_model available' w') = Ok (Some m)) /\
    fst (select_in ["A"; "B"; "C"] [JStr "C"; JStr "B"] w) = Ok (Some "B").
Proof.
  split.
  - exists "qwen/qwen3-32b". split; simpl; tauto.
  - apply (select_lowest_preference_index SUPPORTED_MODELS).
    exists "qwen/qwen3-32b". split; simpl; tauto.
Defined.

(** C2. When no entry of the preference list occurs in the available
    sequence (the empty sequence included), the selector returns [None]
    without raising, and logs nothing. *)
Theorem select_disjoint_returns_none
    (supported : list string) (available : list json) (w : World) :
  (forall m, In m supported -> ~ In (JStr m) available) ->
  select_in supported available w = (Ok None, w) /\
  select_in supported [] w = (Ok None, w).
Proof.
  intros Hdisj. split; apply select_in_miss.
  - intros m Hm. apply py_in_not_In. now apply Hdisj.
  - reflexivity.
Qed.

Lemma select_disjoint_returns_none_witness :
  let available := [JStr "X"; JStr "Y"] in
  let w := world_of [] ReplyMalformed in
  (forall m, In m SUPPORTED_MODELS -> ~ In (JStr m) available) /\
  select_compatible_model available w = (Ok None, w) /\
  select_compatible_model [] w = (Ok None, w).
Proof.
  assert (Hdisj : forall m, In m SUPPORTED_MODELS ->
                            ~ In (JStr m) [JStr "X"; JStr "Y"]).
  { intros m Hm Hin. simpl in Hm, Hin.
    destruct Hm as [<- | [<- | [<- | []]]];
      destruct Hin as [Heq | [Heq | []]]; discriminate Heq. }
  split; [exact Hdisj |].
  exact (select_disjoint_returns_none SUPPORTED_MODELS _ _ Hdisj).
Defined.

(** C3. A model returned by [select_compatible_model] is an entry of
    [SUPPORTED_MODELS] and a member of the available sequence it was
    given. *)
Theorem selected_in_both_lists (available : list json) (w : World) (m : string) :
  fst (select_compatible_model available w) = Ok (Some m) ->
  In m SUPPORTED_MODELS /\ In (JStr m) available.
Proof.
  unfold select_compatible_model. intros Hrun.
  destruct (select_in_cases SUPPORTED_MODELS available w)
    as [Hnone | (m' & Hsup & Hav & Hsome)].
  - rewrite Hnone in Hrun. discriminate Hrun.
  - rewrite Hsome in Hrun. simpl in Hrun. inversion Hrun; subst m'.
    split; [assumption | now apply py_in_In].
Qed.

Lemma selected_in_both_lists_witness :
  let available := [JStr "other"; JStr "llama-3.1-8b-instant"] in
  let w := world_of [] ReplyMalformed in
  fst (select_compatible_model available w) = Ok (Some "llama-3.1-8b-instant") /\
  In "llama-3.1-8b-instant" SUPPORTED_MODELS /\
  In (JStr "llama-3.1-8b-instant") available.
Proof.
  split; [reflexivity |].
  apply (selected_in_both_lists _ (world_of [] ReplyMalformed)). reflexivity.
Defined.

(** ** The applier *)

Section Applier.

Implicit Types (model_name : string) (w : World).

Lemma ensure_env_model_kept model_name w :
  environ w !! "GROQ_CHAT_MODEL" = Some model_name ->
  ensure_env_model model_name w = (Ok tt, with_event w (noop_log model_name)).
Proof.
  intros Hcur. unfold ensure_env_model, bind, getenv.
  rewrite Hcur, String.eqb_refl. reflexivity.
Qed.

(** The write of the setting fails exactly for a value holding NUL. *)
Lemma setenv_chat_model (value : string) w :
  setenv "GROQ_CHAT_MODEL" value w
  = if has_nul value then (Raise ValueError, w)
    else (Ok tt, mkWorld (<["GROQ_CHAT_MODEL" := value]> (environ w)) (network w)
                         (trace w ++ [EvSetenv "GROQ_CHAT_MODEL" value])).
Proof.
  unfold setenv.
  assert (Hname : has_nul "GROQ_CHAT_MODEL" = false) by reflexivity.
  assert (Hlegal : illegal_name "GROQ_CHAT_MODEL" = false) by reflexivity.
  rewrite Hname, Hlegal. simpl. now rewrite orb_false_r.
Qed.

(** What a call does when the setting is unset or differs. *)
Lemma ensure_env_model_differs model_name w :
  environ w !! "GROQ_CHAT_MODEL" <> Some model_name ->
  ensure_env_model model_name w
  = if has_nul model_name then (Raise ValueError, w)
    else (Ok tt, updated w model_name).
Proof.
  intros Hcur. unfold ensure_env_model, bind, getenv.
  destruct (environ w !! "GROQ_CHAT_MODEL") as [c|] eqn:Hlook.
  - destruct (c =? model_name) eqn:Heq.
    + apply String.eqb_eq in Heq. congruence.
    + rewrite setenv_chat_model. now destruct (has_nul model_name).
  - rewrite setenv_chat_model. now destruct (has_nul model_name).
Qed.

Lemma ensure_env_model_written model_name w :
  has_nul model_name = false ->
  environ w !! "GROQ_CHAT_MODEL" <> Some model_name ->
  ensure_env_model model_name w = (Ok tt, updated w model_name).
Proof.
  intros Hnul Hcur. now rewrite ensure_env_model_differs, Hnul.
Qed.

Lemma ensure_env_model_refused model_name w :
  has_nul model_name = true ->
  environ w !! "GROQ_CHAT_MODEL" <> Some model_name ->
  ensure_env_model model_name w = (Raise ValueError, w).
Proof.
  intros Hnul Hcur. now rewrite ensure_env_model_differs, Hnul.
Qed.


Lemma supported_models_no_nul m : In m SUPPORTED_MODELS -> has_nul m = false.
Proof.
  simpl. intros [<- | [<- | [<- | []]]]; reflexivity.
Qed.

End Applier.




(** C8. When [GROQ_CHAT_MODEL] already equals the chosen identifier,
    [ensure_env_model] returns without writing: the environment is the one
    it started from and the only event added is the log line that says the
    setting is already defined. *)
Theorem ensure_env_model_noop (model_name : string) (w : World) :
  environ w !! "GROQ_CHAT_MODEL" = Some model_name ->
  fst (ensure_env_model model_name w) = Ok tt /\
  environ (snd (ensure_env_model model_name w)) = environ w /\
  trace (snd (ensure_env_model model_name w)) = (trace w ++ [noop_log model_name])%list.
Proof.
  intros Hcur. rewrite (ensure_env_model_kept model_name w Hcur). now repeat split.
Qed.

Lemma ensure_env_model_noop_witness :
  let w := world_of [("GROQ_CHAT_MODEL", "llama-3.1-8b-instant")] ReplyMalformed in
  environ w !! "GROQ_CHAT_MODEL" = Some "llama-3.1-8b-instant" /\
  fst (ensure_env_model "llama-3.1-8b-instant" w) = Ok tt /\
  environ (snd (ensure_env_model "llama-3.1-8b-instant" w)) = environ w /\
  trace (snd (ensure_env_model "llama-3.1-8b-instant" w))
    = (trace w ++ [noop_log "llama-3.1-8b-instant"])%list.
Proof.
  split; [vm_compute; reflexivity |].
  apply (ensure_env_model_noop "llama-3.1-8b-instant"). vm_compute. reflexivity.
Defined.

(** ** The fetcher *)

Section Fetcher.

Implicit Types (api_key : string) (w : World) (entries : list json).

(** The comprehension keeps what the specification's wording keeps. *)
Lemma comprehension_usable_id entries :
  map get_id
      (List.filter (fun model => is_dict model && truthy (get_id model)) entries)
  = omap usable_id entries.
Proof.
  induction entries as [|entry rest IH]; [reflexivity |].
  simpl. destruct entry as [| | | | |items|members]; simpl; try exact IH.
  destruct (dict_get "id" members) as [v|] eqn:Hget; simpl.
  - destruct (truthy v); simpl; [| exact IH].
    rewrite Hget, IH. reflexivity.
  - exact IH.
Qed.

Lemma fetch_from_array api_key w members entries :
  network w (request_of api_key) = ReplyJson (JObj members) ->
  default (JArr []) (dict_get "data" members) = JArr entries ->
  fetch_available_models api_key w
  = (Ok (omap usable_id entries),
     fetched (requested w api_key) (omap usable_id entries)).
Proof.
  intros Hnet Hdata.
  unfold fetch_available_models, bind, try_reraise, urlopen_json.
  fold (request_of api_key). rewrite Hnet. simpl. rewrite Hdata. simpl.
  rewrite comprehension_usable_id. reflexivity.
Qed.

Lemma usable_id_truthy entry v : usable_id entry = Some v -> truthy v = true.
Proof.
  destruct entry as [| | | | |items|members]; simpl; try discriminate.
  destruct (dict_get "id" members) as [v'|]; [| discriminate].
  destruct (truthy v') eqn:Htrue; [| discriminate]. congruence.
Qed.

End Fetcher.

(** C5, the claim as stated fails: a payload that is not an object makes
    [fetch_available_models] raise instead of returning a sequence, and an
    entry whose identifier is the number 42 puts a value that is not a
    string in the returned sequence. *)
Lemma fetch_any_payload_counterexample :
  let w1 := world_of [] (ReplyJson (JArr [])) in
  let w2 := world_of [] (ReplyJson (JObj [("data", JArr [JObj [("id", JInt 42)]])])) in
  (fst (fetch_available_models "k" w1) = Raise AttributeError /\
   ~ exists models, fst (fetch_available_models "k" w1) = Ok models) /\
  (fst (fetch_available_models "k" w2) = Ok [JInt 42] /\
   ~ exists models, fst (fetch_available_models "k" w2) = Ok models /\
                    forallb is_str models = true).
Proof.
  split; split; try reflexivity.
  - intros (models & Hrun). discriminate Hrun.
  - intros (models & Hrun & Hstr). vm_compute in Hrun.
    inversion Hrun; subst models. discriminate Hstr.
Qed.

(** C5, amended.  When the payload is an object whose [data] field is
    absent or holds an array, [fetch_available_models] returns normally,
    in payload order, exactly the identifier values of the entries that are
    mappings and carry an identifier with a true value; the other entries
    are skipped.  When moreover every identifier present in a mapping entry
    is a string, the returned sequence consists of non-empty strings. *)
Theorem fetch_returns_usable_ids
    (api_key : string) (w : World) (members : list (string * json))
    (entries : list json) :
  network w (request_of api_key) = ReplyJson (JObj members) ->
  default (JArr []) (dict_get "data" members) = JArr entries ->
  fst (fetch_available_models api_key w) = Ok (omap usable_id entries) /\
  ((forall entry_members v,
       In (JObj entry_members) entries ->
       dict_get "id" entry_members = Some v -> is_str v = true) ->
   Forall (fun v => exists s, v = JStr s /\ s <> "")
          (omap usable_id entries)).
Proof.
  intros Hnet Hdata.
  rewrite (fetch_from_array api_key w members entries Hnet Hdata).
  split; [reflexivity |].
  intros Hids. clear Hnet Hdata.
  induction entries as [|entry rest IH]; [constructor |].
  assert (Hrest : Forall (fun v => exists s, v = JStr s /\ s <> "")
                         (omap usable_id rest)).
  { apply IH. intros em v Hin Hget. apply (Hids em v); [now right | assumption]. }
  simpl. destruct (usable_id entry) as [v|] eqn:Hentry; [| exact Hrest].
  constructor; [| exact Hrest].
  pose proof (usable_id_truthy entry v Hentry) as Htrue.
  destruct entry as [| | | | |items|em]; simpl in Hentry; try discriminate.
  destruct (dict_get "id" em) as [v'|] eqn:Hget; [| discriminate].
  assert (Hstr : is_str v' = true) by (apply (Hids em v'); [now left | assumption]).
  destruct (truthy v'); [| discriminate]. inversion Hentry; subst v'.
  destruct v; try discriminate Hstr.
  exists s. split; [reflexivity |].
  intros ->. discriminate Htrue.
Qed.

Lemma fetch_returns_usable_ids_witness :
  let w := world_of [] (ReplyJson (JObj sample_members)) in
  network w (request_of "k") = ReplyJson (JObj sample_members) /\
  default (JArr []) (dict_get "data" sample_members) = JArr sample_entries /\
  fst (fetch_available_models "k" w)
    = Ok [JStr "qwen/qwen3-32b"; JStr "llama-3.1-8b-instant"] /\
  ((forall entry_members v,
       In (JObj entry_members) sample_entries ->
       dict_get "id" entry_members = Some v -> is_str v = true) ->
   Forall (fun v => exists s, v = JStr s /\ s <> "")
          [JStr "qwen/qwen3-32b"; JStr "llama-3.1-8b-instant"]).
Proof.
  split; [reflexivity |]. split; [reflexivity |].
  exact (fetch_returns_usable_ids "k"
           (world_of [] (ReplyJson (JObj sample_members)))
           sample_members sample_entries eq_refl eq_refl).
Defined.

(** ** Traces *)

Section Traces.

Implicit Types (w : World) (evs : list Event).

Lemma extends_refl w : extends w w [].
Proof. unfold extends. now rewrite app_nil_r. Qed.

Lemma extends_event w ev : extends w (with_event w ev) [ev].
Proof. reflexivity. Qed.

Lemma extends_trans w w1 w2 evs1 evs2 :
  extends w w1 evs1 -> extends w1 w2 evs2 -> extends w w2 (evs1 ++ evs2)%list.
Proof.
  unfold extends. intros H1 H2. rewrite H2, H1. symmetry. apply app_assoc.
Qed.

Lemma extends_inj w w' evs evs' : extends w w' evs -> extends w w' evs' -> evs = evs'.
Proof.
  unfold extends. intros H1 H2. rewrite H1 in H2. now apply app_inv_head in H2.
Qed.

Lemma quiet_refl w : quiet w w.
Proof.
  repeat split. exists []. split; [apply extends_refl | reflexivity].
Qed.

Lemma quiet_trans w w1 w2 : quiet w w1 -> quiet w1 w2 -> quiet w w2.
Proof.
  intros (He1 & Hn1 & evs1 & Hx1 & Hq1) (He2 & Hn2 & evs2 & Hx2 & Hq2).
  split; [congruence |]. split; [congruence |].
  exists (evs1 ++ evs2)%list. split; [now apply (extends_trans w w1) |].
  rewrite existsb_app, Hq1, Hq2. reflexivity.
Qed.

Lemma quiet_event w ev : applier_event ev = false -> quiet w (with_event w ev).
Proof.
  intros Hev. repeat split. exists [ev]. split; [apply extends_event |].
  simpl. now rewrite Hev.
Qed.

Lemma quietly_ret {A} (a : A) : quietly (ret a).
Proof. intros w. apply quiet_refl. Qed.

Lemma quietly_raise {A} (e : Exn) : quietly (@raise A e).
Proof. intros w. apply quiet_refl. Qed.

Lemma quietly_emit ev : applier_event ev = false -> quietly (emit ev).
Proof. intros Hev w. now apply quiet_event. Qed.

Lemma quietly_bind {A B} (c : M A) (k : A -> M B) :
  quietly c -> (forall a, quietly (k a)) -> quietly (bind c k).
Proof.
  intros Hc Hk w. unfold bind. specialize (Hc w).
  destruct (c w) as [[a | e] w1]; simpl in *; [| exact Hc].
  apply (quiet_trans w w1); [exact Hc | apply Hk].
Qed.

Lemma quietly_try_reraise {A} (c : M A) (handler : Exn -> option (M unit)) :
  quietly c -> (forall e h, handler e = Some h -> quietly h) ->
  quietly (try_reraise c handler).
Proof.
  intros Hc Hh w. unfold try_reraise. specialize (Hc w).
  destruct (c w) as [[a | e] w1]; simpl in *; [exact Hc |].
  destruct (handler e) as [h |] eqn:Hhandler; [| exact Hc].
  specialize (Hh e h Hhandler w1).
  destruct (h w1) as [[u | e'] w2]; simpl in *; apply (quiet_trans w w1); assumption.
Qed.

Lemma quietly_urlopen_json request : quietly (urlopen_json request).
Proof.
  intros w. unfold urlopen_json.
  destruct (network w request); simpl; now apply quiet_event.
Qed.

End Traces.

Section Fetcher_effects.

Implicit Types (api_key : string) (w : World).

Lemma fetch_available_models_quietly api_key : quietly (fetch_available_models api_key).
Proof.
  unfold fetch_available_models. apply quietly_bind.
  - apply quietly_try_reraise; [apply quietly_urlopen_json |].
    intros e h Hh. destruct e; inversion Hh; subst h; now apply quietly_emit.
  - intros data. apply quietly_bind.
    { destruct data; first [apply quietly_ret | apply quietly_raise]. }
    intros field. apply quietly_bind.
    { destruct field; first [apply quietly_ret | apply quietly_raise]. }
    intros entries. apply quietly_bind; [now apply quietly_emit |].
    intros _. apply quietly_ret.
Qed.

(** Every call of the fetcher calls [urlopen] before anything else. *)
Lemma fetch_available_models_requests api_key w :
  exists evs,
    extends w (snd (fetch_available_models api_key w))
            (EvRequest (request_of api_key) :: evs).
Proof.
  unfold fetch_available_models, bind, try_reraise, urlopen_json, extends.
  fold (request_of api_key).
  destruct (network w (request_of api_key))
    as [code fp descr | reason | | data | other]; simpl.
  - eexists. rewrite <- app_assoc. reflexivity.
  - eexists. rewrite <- app_assoc. reflexivity.
  - exists []. reflexivity.
  - destruct (get_data data _) as [[field | e] w1] eqn:Hdata.
    + assert (w1 = requested w api_key) as ->
        by (destruct data; inversion Hdata; reflexivity).
      destruct (py_iter field _) as [[entries | e] w2] eqn:Hiter.
      * assert (w2 = requested w api_key) as ->
          by (destruct field; inversion Hiter; reflexivity).
        simpl. eexists. rewrite <- app_assoc. reflexivity.
      * assert (w2 = requested w api_key) as ->
          by (destruct field; inversion Hiter; reflexivity).
        exists []. reflexivity.
    + assert (w1 = requested w api_key) as ->
        by (destruct data; inversion Hdata; reflexivity).
      exists []. reflexivity.
  - destruct other; simpl;
      first [ exists []; reflexivity
            | eexists; rewrite <- app_assoc; reflexivity ].
Qed.

Lemma fetch_keeps_state (key : string) w :
  environ (snd (fetch_available_models key w)) = environ w /\
  network (snd (fetch_available_models key w)) = network w.
Proof.
  destruct (fetch_available_models_quietly key w) as (He & Hn & _). now split.
Qed.

End Fetcher_effects.

(** ** The entry point *)

Section Entry_point.

Implicit Types (w : World) (key : string) (available : list json).

(** Every call of the applier with an identifier the environment can hold
    leaves at least one of its events. *)
Lemma ensure_env_model_leaves_event (model_name : string) w :
  has_nul model_name = false ->
  fst (ensure_env_model model_name w) = Ok tt /\
  exists evs, extends w (snd (ensure_env_model model_name w)) evs /\
              existsb applier_event evs = true.
Proof.
  intros Hnul.
  destruct (decide (environ w !! "GROQ_CHAT_MODEL" = Some model_name)) as [Hcur | Hcur].
  - rewrite ensure_env_model_kept by assumption. split; [reflexivity |].
    exists [noop_log model_name]. split; reflexivity.
  - rewrite ensure_env_model_written by assumption. split; [reflexivity |].
    eexists. split; [unfold extends; simpl; rewrite <- app_assoc; reflexivity |].
    reflexivity.
Qed.

Lemma supported_models_nonempty m : In m SUPPORTED_MODELS -> py_not (Some m) = false.
Proof.
  simpl. intros [<- | [<- | [<- | []]]]; reflexivity.
Qed.

Lemma main_missing w :
  py_not (environ w !! "GROQ_API_KEY") = true ->
  main w = (Raise missing_credential, w).
Proof.
  intros Hnot. unfold main, bind, getenv. now rewrite Hnot.
Qed.

Lemma run_module_missing w :
  py_not (environ w !! "GROQ_API_KEY") = true ->
  run_module w = (1%Z, with_event w (failure_log missing_credential)).
Proof.
  intros Hnot. unfold run_module. now rewrite main_missing.
Qed.

Lemma py_not_key w key :
  environ w !! "GROQ_API_KEY" = Some key -> key <> "" ->
  py_not (environ w !! "GROQ_API_KEY") = false.
Proof.
  intros -> Hkey. simpl. now apply String.eqb_neq.
Qed.

Lemma main_fetch_raises w key e w1 :
  environ w !! "GROQ_API_KEY" = Some key -> key <> "" ->
  fetch_available_models key (with_event w fetching_log) = (Raise e, w1) ->
  main w = (Raise e, w1).
Proof.
  intros Henv Hkey Hfetch. unfold main, bind, getenv.
  rewrite (py_not_key w key Henv Hkey), Henv. simpl.
  fold fetching_log. now rewrite Hfetch.
Qed.

Lemma main_no_model w key available w1 :
  environ w !! "GROQ_API_KEY" = Some key -> key <> "" ->
  fetch_available_models key (with_event w fetching_log) = (Ok available, w1) ->
  fst (select_compatible_model available w1) = Ok None ->
  main w = (Raise (no_compatible_model available), w1).
Proof.
  intros Henv Hkey Hfetch Hsel. unfold main, bind, getenv.
  rewrite (py_not_key w key Henv Hkey), Henv. simpl.
  fold fetching_log. rewrite Hfetch.
  unfold select_compatible_model in *.
  destruct (select_in_cases SUPPORTED_MODELS available w1)
    as [Hnone | (m & _ & _ & Hsome)].
  - now rewrite Hnone.
  - rewrite Hsome in Hsel. discriminate Hsel.
Qed.

Lemma main_applies w key available w1 m :
  environ w !! "GROQ_API_KEY" = Some key -> key <> "" ->
  fetch_available_models key (with_event w fetching_log) = (Ok available, w1) ->
  fst (select_compatible_model available w1) = Ok (Some m) ->
  main w = (Ok tt, with_event (snd (ensure_env_model m (found w1 m))) success_log).
Proof.
  intros Henv Hkey Hfetch Hsel. unfold main, bind, getenv.
  rewrite (py_not_key w key Henv Hkey), Henv. simpl.
  fold fetching_log. rewrite Hfetch.
  unfold select_compatible_model in *.
  destruct (select_in_cases SUPPORTED_MODELS available w1)
    as [Hnone | (m' & Hsup & _ & Hsome)].
  - rewrite Hnone in Hsel. discriminate Hsel.
  - rewrite Hsome in Hsel. simpl in Hsel. inversion Hsel; subst m'.
    rewrite Hsome, (supported_models_nonempty m Hsup). simpl.
    destruct (ensure_env_model_leaves_event m (found w1 m)
                (supported_models_no_nul m Hsup)) as [Hok _].
    destruct (ensure_env_model m (found w1 m)) as [r w2]. simpl in *.
    now rewrite Hok.
Qed.

(** A run ends with status 0, or it ends with status 1 and never reached
    the applier. *)
Lemma run_module_cases w :
  fst (run_module w) = 0%Z \/
  (fst (run_module w) = 1%Z /\ quiet w (snd (run_module w))).
Proof.
  destruct (py_not (environ w !! "GROQ_API_KEY")) eqn:Hnot.
  { right. rewrite run_module_missing by assumption.
    split; [reflexivity | now apply quiet_event]. }
  destruct (environ w !! "GROQ_API_KEY") as [key |] eqn:Henv; [| discriminate].
  assert (Hkey : key <> "") by (simpl in Hnot; now apply String.eqb_neq).
  pose proof (fetch_available_models_quietly key (with_event w fetching_log)) as Hquiet.
  assert (Hstart : quiet w (with_event w fetching_log)) by now apply quiet_event.
  destruct (fetch_available_models key (with_event w fetching_log))
    as [[available | e] w1] eqn:Hfetch; simpl in Hquiet.
  - destruct (select_in_cases SUPPORTED_MODELS available w1)
      as [Hnone | (m & _ & _ & Hsome)].
    + right. unfold run_module.
      rewrite (main_no_model w key available w1 Henv Hkey Hfetch)
        by (unfold select_compatible_model; now rewrite Hnone).
      split; [reflexivity |]. simpl.
      apply (quiet_trans w w1); [| now apply quiet_event].
      now apply (quiet_trans w (with_event w fetching_log)).
    + left. unfold run_module.
      rewrite (main_applies w key available w1 m Henv Hkey Hfetch)
        by (unfold select_compatible_model; now rewrite Hsome).
      reflexivity.
  - right. unfold run_module.
    rewrite (main_fetch_raises w key e w1 Henv Hkey Hfetch).
    split; [reflexivity |]. simpl.
    apply (quiet_trans w w1); [| now apply quiet_event].
    now apply (quiet_trans w (with_event w fetching_log)).
Qed.

End Entry_point.

(** C6. When [GROQ_API_KEY] is unset, [main] raises the missing-credential
    error and leaves the state exactly as it found it; the run ends with
    exit status 1 after logging that error, and its trace holds no request.
    Since every call of the fetcher leaves a request in the trace, the
    fetcher was not called. *)
Theorem missing_credential_is_fatal (w : World) :
  environ w !! "GROQ_API_KEY" = None ->
  main w = (Raise missing_credential, w) /\
  run_module w = (1%Z, with_event w (failure_log missing_credential)) /\
  (exists evs, extends w (snd (run_module w)) evs /\ existsb is_request evs = false) /\
  (forall key w0, exists evs,
      extends w0 (snd (fetch_available_models key w0)) evs /\
      existsb is_request evs = true).
Proof.
  intros Hunset.
  assert (Hnot : py_not (environ w !! "GROQ_API_KEY") = true) by now rewrite Hunset.
  split; [now apply main_missing |].
  split; [now apply run_module_missing |].
  split.
  - rewrite run_module_missing by assumption.
    exists [failure_log missing_credential]. split; reflexivity.
  - intros key w0.
    destruct (fetch_available_models_requests key w0) as (evs & Hext).
    eexists. split; [exact Hext | reflexivity].
Qed.

Lemma missing_credential_is_fatal_witness :
  let w := world_of [("GROQ_CHAT_MODEL", "qwen/qwen3-32b")] (ReplyJson (JObj sample_members)) in
  environ w !! "GROQ_API_KEY" = None /\
  main w = (Raise missing_credential, w) /\
  run_module w = (1%Z, with_event w (failure_log missing_credential)) /\
  (exists evs, extends w (snd (run_module w)) evs /\ existsb is_request evs = false) /\
  (forall key w0, exists evs,
      extends w0 (snd (fetch_available_models key w0)) evs /\
      existsb is_request evs = true).
Proof.
  split; [vm_compute; reflexivity |].
  apply missing_credential_is_fatal. vm_compute. reflexivity.
Defined.

(** C9. A credential that is set to the empty string is handled like an
    unset one: [main] raises the same missing-credential error with the
    state untouched, the run ends with exit status 1, no request is in its
    trace, and outcome and exit status are those of any run without the
    setting. *)
Theorem empty_credential_is_missing (w : World) :
  environ w !! "GROQ_API_KEY" = Some "" ->
  main w = (Raise missing_credential, w) /\
  run_module w = (1%Z, with_event w (failure_log missing_credential)) /\
  (exists evs, extends w (snd (run_module w)) evs /\ existsb is_request evs = false) /\
  (forall w', environ w' !! "GROQ_API_KEY" = None ->
              fst (main w') = fst (main w) /\
              fst (run_module w') = fst (run_module w)).
Proof.
  intros Hempty.
  assert (Hnot : py_not (environ w !! "GROQ_API_KEY") = true) by now rewrite Hempty.
  rewrite (run_module_missing w Hnot), (main_missing w Hnot).
  split; [reflexivity |]. split; [reflexivity |]. split.
  - exists [failure_log missing_credential]. split; reflexivity.
  - intros w' Hunset.
    assert (Hnot' : py_not (environ w' !! "GROQ_API_KEY") = true) by now rewrite Hunset.
    now rewrite (run_module_missing w' Hnot'), (main_missing w' Hnot').
Qed.

Lemma empty_credential_is_missing_witness :
  let w := world_of [("GROQ_API_KEY", "")] (ReplyJson (JObj sample_members)) in
  environ w !! "GROQ_API_KEY" = Some "" /\
  main w = (Raise missing_credential, w) /\
  run_module w = (1%Z, with_event w (failure_log missing_credential)) /\
  (exists evs, extends w (snd (run_module w)) evs /\ existsb is_request evs = false) /\
  (forall w', environ w' !! "GROQ_API_KEY" = None ->
              fst (main w') = fst (main w) /\
              fst (run_module w') = fst (run_module w)).
Proof.
  split; [vm_compute; reflexivity |].
  apply empty_credential_is_missing. vm_compute. reflexivity.
Defined.

(** C7. In a run whose fetcher returned [available] and whose selector
    returned [None], [main] raises a [RuntimeError] whose message
    interpolates the whole of [SUPPORTED_MODELS] and the whole of
    [available]; the run ends with exit status 1, the environment is the
    one it started with and no event of the applier is in its trace.
    Conversely, a run whose trace holds an event of the applier ends with
    exit status 0, and that is the case of every run whose selector
    returned a model. *)
Theorem no_compatible_model_is_fatal (w : World) :
  (forall key available w1,
      environ w !! "GROQ_API_KEY" = Some key -> key <> "" ->
      fetch_available_models key (with_event w fetching_log) = (Ok available, w1) ->
      fst (select_compatible_model available w1) = Ok None ->
      exists message,
        main w = (Raise (RuntimeError message), w1) /\
        In (Interp (map JStr SUPPORTED_MODELS)) message /\
        In (Interp available) message /\
        fst (run_module w) = 1%Z /\
        environ (snd (run_module w)) = environ w /\
        exists evs, extends w (snd (run_module w)) evs /\
                    existsb applier_event evs = false) /\
  (forall evs,
      extends w (snd (run_module w)) evs ->
      existsb applier_event evs = true ->
      fst (run_module w) = 0%Z) /\
  (forall key available w1 m,
      environ w !! "GROQ_API_KEY" = Some key -> key <> "" ->
      fetch_available_models key (with_event w fetching_log) = (Ok available, w1) ->
      fst (select_compatible_model available w1) = Ok (Some m) ->
      fst (run_module w) = 0%Z /\
      exists evs, extends w (snd (run_module w)) evs /\
                  existsb applier_event evs = true).
Proof.
  split; [| split].
  - intros key available w1 Henv Hkey Hfetch Hsel.
    pose proof (main_no_model w key available w1 Henv Hkey Hfetch Hsel) as Hmain.
    eexists. split; [exact Hmain |].
    split; [simpl; tauto |]. split; [simpl; tauto |].
    destruct (run_module_cases w) as [Hzero | [Hone (Henviron & _ & Hevs)]].
    + unfold run_module in Hzero. rewrite Hmain in Hzero. discriminate Hzero.
    + repeat split; assumption.
  - intros evs Hext Happlier.
    destruct (run_module_cases w) as [Hzero | [_ (_ & _ & evs' & Hext' & Hnone)]];
      [assumption |].
    rewrite (extends_inj _ _ _ _ Hext Hext') in Happlier. congruence.
  - intros key available w1 m Henv Hkey Hfetch Hsel.
    pose proof (main_applies w key available w1 m Henv Hkey Hfetch Hsel) as Hmain.
    unfold run_module. rewrite Hmain. split; [reflexivity |]. simpl.
    pose proof (fetch_available_models_quietly key (with_event w fetching_log)) as Hquiet.
    rewrite Hfetch in Hquiet. destruct Hquiet as (_ & _ & evs1 & Hext1 & _).
    assert (Hsup : In m SUPPORTED_MODELS).
    { unfold select_compatible_model in Hsel.
      destruct (select_in_cases SUPPORTED_MODELS available w1)
        as [Hnone | (m' & Hsup & _ & Hsome)]; rewrite ?Hnone, ?Hsome in Hsel;
        [discriminate Hsel |].
      simpl in Hsel. inversion Hsel; now subst m'. }
    destruct (ensure_env_model_leaves_event m (found w1 m)
                (supported_models_no_nul m Hsup)) as (_ & evs2 & Hext2 & Hev2).
    exists (([fetching_log] ++ evs1)
              ++ (([EvLog info "Modèle compatible trouvé : %s" [ArgStr m]] ++ evs2)
                    ++ [success_log]))%list.
    split.
    + apply (extends_trans w w1).
      * apply (extends_trans w (with_event w fetching_log));
          [apply extends_event | exact Hext1].
      * apply (extends_trans w1 (snd (ensure_env_model m (found w1 m))));
          [| apply extends_event].
        apply (extends_trans w1 (found w1 m)); [apply extends_event | exact Hext2].
    + rewrite !existsb_app, Hev2. simpl.
      now destruct (existsb applier_event evs1).
Qed.

Lemma no_compatible_model_is_fatal_witness :
  (let w := world_without_match in
   let w1 := snd (fetch_available_models "gsk_key" (with_event w fetching_log)) in
   environ w !! "GROQ_API_KEY" = Some "gsk_key" /\
   fetch_available_models "gsk_key" (with_event w fetching_log)
     = (Ok [JStr "X"; JStr "Y"], w1) /\
   fst (select_compatible_model [JStr "X"; JStr "Y"] w1) = Ok None /\
   exists message,
     main w = (Raise (RuntimeError message), w1) /\
     In (Interp (map JStr SUPPORTED_MODELS)) message /\
     In (Interp [JStr "X"; JStr "Y"]) message /\
     fst (run_module w) = 1%Z /\
     environ (snd (run_module w)) = environ w /\
     exists evs, extends w (snd (run_module w)) evs /\
                 existsb applier_event evs = false) /\
  (let w := world_with_match in
   extends w (snd (run_module w)) (trace (snd (run_module w))) /\
   existsb applier_event (trace (snd (run_module w))) = true /\
   fst (run_module w) = 0%Z).
Proof.
  split.
  - split; [vm_compute; reflexivity |].
    split; [vm_compute; reflexivity |].
    split; [vm_compute; reflexivity |].
    apply (proj1 (no_compatible_model_is_fatal world_without_match) "gsk_key").
    + vm_compute. reflexivity.
    + discriminate.
    + vm_compute. reflexivity.
    + vm_compute. reflexivity.
  - split; [vm_compute; reflexivity |].
    split; [vm_compute; reflexivity |].
    apply (proj1 (proj2 (no_compatible_model_is_fatal world_with_match))
             (trace (snd (run_module world_with_match)))).
    + vm_compute. reflexivity.
    + vm_compute. reflexivity.
Defined.

(** C10. When the decoded body is an object without a [data] field,
    [fetch_available_models] returns the empty sequence without raising;
    a run with a credential then ends in the no-compatible-model
    [RuntimeError], built from the empty sequence, and exit status 1. *)
Theorem missing_data_field_gives_no_models
    (w : World) (key : string) (members : list (string * json)) :
  network w (request_of key) = ReplyJson (JObj members) ->
  dict_get "data" members = None ->
  fst (fetch_available_models key w) = Ok [] /\
  (environ w !! "GROQ_API_KEY" = Some key -> key <> "" ->
   fst (main w) = Raise (no_compatible_model []) /\
   fst (run_module w) = 1%Z).
Proof.
  intros Hnet Hdata.
  assert (Harr : default (JArr []) (dict_get "data" members) = JArr [])
    by now rewrite Hdata.
  split.
  - now rewrite (fetch_from_array key w members [] Hnet Harr).
  - intros Henv Hkey.
    pose proof (fetch_from_array key (with_event w fetching_log) members [] Hnet Harr)
      as Hfetch.
    pose proof (main_no_model w key [] _ Henv Hkey Hfetch eq_refl) as Hmain.
    unfold run_module. rewrite Hmain. split; reflexivity.
Qed.

Lemma missing_data_field_gives_no_models_witness :
  let w := world_without_data in
  let members := [("error", JObj [("message", JStr "maintenance")])] in
  network w (request_of "gsk_key") = ReplyJson (JObj members) /\
  dict_get "data" members = None /\
  environ w !! "GROQ_API_KEY" = Some "gsk_key" /\
  fst (fetch_available_models "gsk_key" w) = Ok [] /\
  fst (main w) = Raise (no_compatible_model []) /\
  fst (run_module w) = 1%Z.
Proof.
  split; [reflexivity |]. split; [reflexivity |].
  split; [vm_compute; reflexivity |].
  destruct (missing_data_field_gives_no_models world_without_data "gsk_key"
              [("error", JObj [("message", JStr "maintenance")])] eq_refl eq_refl)
    as [Hfetch Hrun].
  split; [exact Hfetch |].
  apply Hrun; [vm_compute; reflexivity | discriminate].
Defined.

(** ** Further properties of the fetcher *)

Section Fetcher_outcomes.

Implicit Types (api_key : string) (w : World).

(** What a call of the fetcher does, by the reply of the endpoint. *)
Lemma fetch_reply_cases api_key w :
  match network w (request_of api_key) with
  | ReplyHTTPError code fp descr =>
      fetch_available_models api_key w
      = (Raise (HTTPError code fp descr),
         with_event (requested w api_key) (http_error_log code fp descr))
  | ReplyURLError reason =>
      fetch_available_models api_key w
      = (Raise (URLError reason),
         with_event (requested w api_key) (url_error_log reason))
  | ReplyMalformed =>
      fetch_available_models api_key w = (Raise JSONDecodeError, requested w api_key)
  | ReplyJson (JObj members) =>
      match default (JArr []) (dict_get "data" members) with
      | JArr entries =>
          fetch_available_models api_key w
          = (Ok (omap usable_id entries),
             fetched (requested w api_key) (omap usable_id entries))
      | JStr _ | JObj _ =>
          fetch_available_models api_key w
          = (Ok [], fetched (requested w api_key) [])
      | _ => fetch_available_models api_key w = (Raise TypeError, requested w api_key)
      end
  | ReplyJson _ =>
      fetch_available_models api_key w = (Raise AttributeError, requested w api_key)
  | ReplyOther e =>
      fetch_available_models api_key w
      = (Raise e,
         match e with
         | HTTPError code fp descr =>
             with_event (requested w api_key) (http_error_log code fp descr)
         | URLError reason =>
             with_event (requested w api_key) (url_error_log reason)
         | _ => requested w api_key
         end)
  end.
Proof.
  destruct (network w (request_of api_key))
    as [code fp descr | reason | | data | other] eqn:Hnet;
    [ | | | | unfold fetch_available_models, bind, try_reraise, urlopen_json;
              fold (request_of api_key); rewrite Hnet; now destruct other ].
  - unfold fetch_available_models, bind, try_reraise, urlopen_json.
    fold (request_of api_key). now rewrite Hnet.
  - unfold fetch_available_models, bind, try_reraise, urlopen_json.
    fold (request_of api_key). now rewrite Hnet.
  - unfold fetch_available_models, bind, try_reraise, urlopen_json.
    fold (request_of api_key). now rewrite Hnet.
  - destruct data as [| b | z | f | s | items | members];
      try (unfold fetch_available_models, bind, try_reraise, urlopen_json;
           fold (request_of api_key); now rewrite Hnet).
    destruct (default (JArr []) (dict_get "data" members))
      as [| b | z | f | s | entries | fields] eqn:Hdata;
      try (unfold fetch_available_models, bind, try_reraise, urlopen_json;
           fold (request_of api_key); rewrite Hnet; simpl; now rewrite Hdata).
    + unfold fetch_available_models, bind, try_reraise, urlopen_json.
      fold (request_of api_key). rewrite Hnet. simpl. rewrite Hdata. simpl.
      assert (Hnone : List.filter
                (fun model => is_dict model && truthy (get_id model))
                (map (fun c => JStr (String c "")) (list_ascii_of_string s)) = []).
      { induction (list_ascii_of_string s) as [|c cs IH]; [reflexivity | exact IH]. }
      now rewrite Hnone.
    + exact (fetch_from_array api_key w members entries Hnet Hdata).
    + unfold fetch_available_models, bind, try_reraise, urlopen_json.
      fold (request_of api_key). rewrite Hnet. simpl. rewrite Hdata. simpl.
      assert (Hnone : List.filter
                (fun model => is_dict model && truthy (get_id model))
                (map JStr (dict_keys fields [])) = []).
      { induction (dict_keys fields []) as [|k ks IH]; [reflexivity | exact IH]. }
      now rewrite Hnone.
Qed.

Lemma usable_ids_truthy (entries : list json) :
  Forall (fun v => truthy v = true) (omap usable_id entries).
Proof.
  induction entries as [|entry rest IH]; [constructor |].
  simpl. destruct (usable_id entry) as [v|] eqn:Hentry; [| exact IH].
  constructor; [now apply (usable_id_truthy entry) | exact IH].
Qed.

End Fetcher_outcomes.



(** X2. When [urlopen] raises [URLError], the fetcher logs one error record
    with the reason and raises the same exception again. *)
Theorem fetch_url_error_logged_and_reraised
    (api_key : string) (w : World) (reason : string) :
  network w (request_of api_key) = ReplyURLError reason ->
  fst (fetch_available_models api_key w) = Raise (URLError reason) /\
  extends w (snd (fetch_available_models api_key w))
    [ EvRequest (request_of api_key);
      EvLog error "Erreur réseau : %s" [ArgStr reason] ] /\
  environ (snd (fetch_available_models api_key w)) = environ w.
Proof.
  intros Hnet. pose proof (fetch_reply_cases api_key w) as Hrun.
  rewrite Hnet in Hrun. rewrite Hrun. split; [reflexivity |].
  split; [| reflexivity].
  unfold extends. simpl. now rewrite <- app_assoc.
Qed.

Lemma fetch_url_error_logged_and_reraised_witness :
  let w := world_url_error in
  network w (request_of "gsk_key") = ReplyURLError "Name or service not known" /\
  fst (fetch_available_models "gsk_key" w) = Raise (URLError "Name or service not known") /\
  extends w (snd (fetch_available_models "gsk_key" w))
    [ EvRequest (request_of "gsk_key");
      EvLog error "Erreur réseau : %s" [ArgStr "Name or service not known"] ] /\
  environ (snd (fetch_available_models "gsk_key" w)) = environ w.
Proof.
  split; [reflexivity |].
  exact (fetch_url_error_logged_and_reraised "gsk_key" world_url_error
           "Name or service not known" eq_refl).
Defined.

(** X3. A failure of the fetcher that is not one of [urllib]'s two
    exceptions (a body [json.load] cannot decode, a payload of the wrong
    shape, a request [urlopen] refuses, and any other exception) is raised
    without any log record: the call of [urlopen] is the only event of the
    call of the fetcher. *)
Theorem fetch_other_failures_not_logged (api_key : string) (w : World) (e : Exn) :
  fst (fetch_available_models api_key w) = Raise e ->
  is_url_error e = false ->
  snd (fetch_available_models api_key w) = requested w api_key.
Proof.
  intros Hraise Hother. pose proof (fetch_reply_cases api_key w) as Hrun.
  destruct (network w (request_of api_key))
    as [code fp descr | reason | | data | other].
  - rewrite Hrun in Hraise. inversion Hraise; subst e. discriminate Hother.
  - rewrite Hrun in Hraise. inversion Hraise; subst e. discriminate Hother.
  - now rewrite Hrun.
  - destruct data as [| b | z | f | s | items | members];
      try (now rewrite Hrun).
    destruct (default (JArr []) (dict_get "data" members));
      rewrite Hrun in *; first [discriminate Hraise | reflexivity].
  - rewrite Hrun in *. simpl in Hraise. inversion Hraise; subst other.
    simpl. now destruct e.
Qed.

Lemma fetch_other_failures_not_logged_witness :
  let w := world_of [] (ReplyOther UnicodeDecodeError) in
  fst (fetch_available_models "k" w) = Raise UnicodeDecodeError /\
  is_url_error UnicodeDecodeError = false /\
  snd (fetch_available_models "k" w) = requested w "k".
Proof.
  split; [reflexivity |]. split; [reflexivity |].
  apply (fetch_other_failures_not_logged "k" (world_of [] (ReplyOther UnicodeDecodeError))
           UnicodeDecodeError); reflexivity.
Defined.

(** X4. A decoded payload that is not an object (a list, a string, a
    number, a boolean, null) makes the fetcher raise [AttributeError] at
    [data.get], whatever the payload holds. *)
Theorem fetch_non_object_payload_raises (api_key : string) (w : World) (payload : json) :
  network w (request_of api_key) = ReplyJson payload ->
  is_dict payload = false ->
  fetch_available_models api_key w = (Raise AttributeError, requested w api_key).
Proof.
  intros Hnet Hshape. pose proof (fetch_reply_cases api_key w) as Hrun.
  rewrite Hnet in Hrun. now destruct payload.
Qed.

Lemma fetch_non_object_payload_raises_witness :
  let payload := JArr [JObj [("id", JStr "llama-3.1-8b-instant")]] in
  let w := world_of [] (ReplyJson payload) in
  network w (request_of "k") = ReplyJson payload /\
  is_dict payload = false /\
  fetch_available_models "k" w = (Raise AttributeError, requested w "k").
Proof.
  split; [reflexivity |]. split; [reflexivity |].
  exact (fetch_non_object_payload_raises "k"
           (world_of [] (ReplyJson (JArr [JObj [("id", JStr "llama-3.1-8b-instant")]])))
           (JArr [JObj [("id", JStr "llama-3.1-8b-instant")]]) eq_refl eq_refl).
Defined.

(** X5. When the [data] field of the payload holds null, a boolean or a
    number, the comprehension cannot iterate over it and the fetcher raises
    [TypeError]. *)
Theorem fetch_non_iterable_data_raises
    (api_key : string) (w : World) (members : list (string * json)) (v : json) :
  network w (request_of api_key) = ReplyJson (JObj members) ->
  dict_get "data" members = Some v ->
  not_iterable v = true ->
  fetch_available_models api_key w = (Raise TypeError, requested w api_key).
Proof.
  intros Hnet Hdata Hv. pose proof (fetch_reply_cases api_key w) as Hrun.
  rewrite Hnet, Hdata in Hrun. simpl in Hrun.
  now destruct v.
Qed.

Lemma fetch_non_iterable_data_raises_witness :
  let members := [("data", JNull)] in
  let w := world_of [] (ReplyJson (JObj members)) in
  network w (request_of "k") = ReplyJson (JObj members) /\
  dict_get "data" members = Some JNull /\
  not_iterable JNull = true /\
  fetch_available_models "k" w = (Raise TypeError, requested w "k").
Proof.
  split; [reflexivity |]. split; [reflexivity |]. split; [reflexivity |].
  apply (fetch_non_iterable_data_raises "k"
           (world_of [] (ReplyJson (JObj [("data", JNull)])))
           [("data", JNull)] JNull); reflexivity.
Defined.

(** X6. When the [data] field holds a string or an object, the loop draws
    characters or keys, none of which is a mapping: the fetcher returns the
    empty sequence without raising, whatever the string or the object. *)
Theorem fetch_text_or_mapping_data_is_empty
    (api_key : string) (w : World) (members : list (string * json)) (v : json) :
  network w (request_of api_key) = ReplyJson (JObj members) ->
  dict_get "data" members = Some v ->
  (is_str v || is_dict v) = true ->
  fetch_available_models api_key w = (Ok [], fetched (requested w api_key) []).
Proof.
  intros Hnet Hdata Hv. pose proof (fetch_reply_cases api_key w) as Hrun.
  rewrite Hnet, Hdata in Hrun. simpl in Hrun.
  now destruct v.
Qed.

Lemma fetch_text_or_mapping_data_is_empty_witness :
  let members := [("data", JObj [("id", JStr "llama-3.1-8b-instant")])] in
  let w := world_of [] (ReplyJson (JObj members)) in
  network w (request_of "k") = ReplyJson (JObj members) /\
  dict_get "data" members = Some (JObj [("id", JStr "llama-3.1-8b-instant")]) /\
  (is_str (JObj [("id", JStr "llama-3.1-8b-instant")])
   || is_dict (JObj [("id", JStr "llama-3.1-8b-instant")])) = true /\
  fetch_available_models "k" w = (Ok [], fetched (requested w "k") []).
Proof.
  split; [reflexivity |]. split; [reflexivity |]. split; [reflexivity |].
  apply (fetch_text_or_mapping_data_is_empty "k"
           (world_of [] (ReplyJson (JObj [("data", JObj [("id", JStr "llama-3.1-8b-instant")])])))
           [("data", JObj [("id", JStr "llama-3.1-8b-instant")])]
           (JObj [("id", JStr "llama-3.1-8b-instant")])); reflexivity.
Defined.

(** X7. Whenever the fetcher returns, the endpoint answered with a JSON
    object, every value returned has a true value (no null, no empty
    string, no zero), and the record the fetcher logs lists exactly the
    values it returns. *)
Theorem fetch_returns_true_values (api_key : string) (w : World) (models : list json) :
  fst (fetch_available_models api_key w) = Ok models ->
  (exists members, network w (request_of api_key) = ReplyJson (JObj members)) /\
  Forall (fun v => truthy v = true) models /\
  snd (fetch_available_models api_key w) = fetched (requested w api_key) models.
Proof.
  intros Hok. pose proof (fetch_reply_cases api_key w) as Hrun.
  destruct (network w (request_of api_key))
    as [code fp descr | reason | | data | other];
    try (rewrite Hrun in Hok; discriminate Hok).
  destruct data as [| b | z | f | s | items | members];
    try (rewrite Hrun in Hok; discriminate Hok).
  split; [now exists members |].
  destruct (default (JArr []) (dict_get "data" members));
    rewrite Hrun in *; simpl in Hok; try discriminate Hok;
    inversion Hok; subst models; split; try reflexivity;
    first [apply usable_ids_truthy | constructor].
Qed.

Lemma fetch_returns_true_values_witness :
  let w := world_of [] (ReplyJson (JObj sample_members)) in
  let models := [JStr "qwen/qwen3-32b"; JStr "llama-3.1-8b-instant"] in
  fst (fetch_available_models "k" w) = Ok models /\
  (exists members, network w (request_of "k") = ReplyJson (JObj members)) /\
  Forall (fun v => truthy v = true) models /\
  snd (fetch_available_models "k" w) = fetched (requested w "k") models.
Proof.
  split; [reflexivity |].
  apply (fetch_returns_true_values "k" (world_of [] (ReplyJson (JObj sample_members)))).
  reflexivity.
Defined.


(** ** Further properties of the selector *)

(** X9. Offering more models never lowers the priority of the choice: when
    every member of [available] is a member of [available'] and the
    selector finds [m] in [available], it finds in [available'] an entry
    that stands at the same index of the preference list or before it. *)
Theorem select_more_available_never_worse
    (supported : list string) (available available' : list json)
    (w w' : World) (m : string) :
  (forall v, In v available -> In v available') ->
  fst (select_in supported available w) = Ok (Some m) ->
  exists m' i j,
    fst (select_in supported available' w') = Ok (Some m') /\
    supported !! i = Some m /\ supported !! j = Some m' /\ j <= i.
Proof.
  intros Hsub Hsel.
  destruct (select_in_cases supported available w)
    as [Hnone | (m0 & Hsup & Hav & Hsome)].
  { rewrite Hnone in Hsel. discriminate Hsel. }
  rewrite Hsome in Hsel. simpl in Hsel. inversion Hsel; subst m0. clear Hsel.
  destruct (select_in_hit supported available w) as (i & m1 & Hi & _ & _ & Hrun);
    [now exists m |].
  rewrite Hsome in Hrun. inversion Hrun; subst m1. clear Hrun.
  assert (Hav' : py_in m available' = true).
  { apply py_in_In, Hsub, py_in_In. exact Hav. }
  destruct (select_in_hit supported available' w') as (j & m' & Hj & _ & Hmin & Hrun');
    [now exists m |].
  exists m', i, j. rewrite Hrun'. repeat split; try assumption.
  destruct (le_lt_dec j i) as [Hle | Hlt]; [exact Hle |].
  rewrite (Hmin i m Hlt Hi) in Hav'. discriminate Hav'.
Qed.

Lemma select_more_available_never_worse_witness :
  let w := world_of [] ReplyMalformed in
  let available := [JStr "qwen/qwen3-32b"] in
  let available' := [JStr "qwen/qwen3-32b"; JStr "llama-3.3-70b-versatile"] in
  (forall v, In v available -> In v available') /\
  fst (select_in SUPPORTED_MODELS available w) = Ok (Some "qwen/qwen3-32b") /\
  exists m' i j,
    fst (select_in SUPPORTED_MODELS available' w) = Ok (Some m') /\
    SUPPORTED_MODELS !! i = Some "qwen/qwen3-32b" /\
    SUPPORTED_MODELS !! j = Some m' /\ j <= i.
Proof.
  assert (Hsub : forall v, In v [JStr "qwen/qwen3-32b"] ->
                           In v [JStr "qwen/qwen3-32b"; JStr "llama-3.3-70b-versatile"]).
  { intros v Hv. simpl in *. tauto. }
  split; [exact Hsub |]. split; [reflexivity |].
  exact (select_more_available_never_worse SUPPORTED_MODELS _ _
           (world_of [] ReplyMalformed) (world_of [] ReplyMalformed)
           "qwen/qwen3-32b" Hsub eq_refl).
Defined.

(** X10. The selector never raises and never touches the environment; it
    adds nothing to the trace when it returns [None], and exactly one info
    record, naming the model it returns, when it returns a model. *)
Theorem select_logs_only_its_choice
    (supported : list string) (available : list json) (w : World) :
  environ (snd (select_in supported available w)) = environ w /\
  exists chosen,
    fst (select_in supported available w) = Ok chosen /\
    extends w (snd (select_in supported available w))
      match chosen with
      | Some m => [EvLog info "Modèle compatible trouvé : %s" [ArgStr m]]
      | None => []
      end.
Proof.
  destruct (select_in_cases supported available w)
    as [Hnone | (m & _ & _ & Hsome)].
  - rewrite Hnone. split; [reflexivity |].
    exists None. split; [reflexivity | apply extends_refl].
  - rewrite Hsome. split; [reflexivity |].
    exists (Some m). split; [reflexivity | apply extends_event].
Qed.

(** X11. Values of the available sequence that are not strings never
    match: removing them changes neither the outcome of the selector nor
    what it logs. *)
Theorem select_ignores_non_strings
    (supported : list string) (available : list json) (w : World) :
  select_in supported (List.filter is_str available) w
  = select_in supported available w.
Proof.
  assert (Hsame : forall m, py_in m (List.filter is_str available) = py_in m available).
  { intros m. unfold py_in.
    induction available as [|v rest IH]; [reflexivity |].
    simpl. destruct v; simpl; solve [exact IH | now rewrite IH]. }
  induction supported as [|model rest IH]; [reflexivity |].
  simpl. rewrite Hsame. destruct (py_in model available); [reflexivity | exact IH].
Qed.

(** ** Further properties of the applier *)

(** X12. [ensure_env_model] changes no setting other than
    [GROQ_CHAT_MODEL]. *)
Theorem ensure_env_model_keeps_other_settings
    (model_name : string) (w : World) (name : string) :
  name <> "GROQ_CHAT_MODEL" ->
  environ (snd (ensure_env_model model_name w)) !! name = environ w !! name.
Proof.
  intros Hname.
  destruct (decide (environ w !! "GROQ_CHAT_MODEL" = Some model_name)) as [Hcur | Hcur].
  - now rewrite ensure_env_model_kept.
  - rewrite ensure_env_model_differs by assumption.
    destruct (has_nul model_name); [reflexivity |]. simpl.
    apply lookup_insert_ne. congruence.
Qed.

Lemma ensure_env_model_keeps_other_settings_witness :
  let w := world_of [("GROQ_API_KEY", "gsk_key"); ("GROQ_CHAT_MODEL", "old-model")]
                    ReplyMalformed in
  "GROQ_API_KEY" <> "GROQ_CHAT_MODEL" /\
  environ (snd (ensure_env_model "qwen/qwen3-32b" w)) !! "GROQ_API_KEY"
    = environ w !! "GROQ_API_KEY".
Proof.
  split; [discriminate |].
  apply ensure_env_model_keeps_other_settings. discriminate.
Defined.


(** ** Further properties of a run *)

Section Run_outcomes.

Implicit Types (w : World) (key : string) (available : list json).

Lemma ensure_env_model_environ (model_name : string) w :
  has_nul model_name = false ->
  environ (snd (ensure_env_model model_name w))
    = <["GROQ_CHAT_MODEL" := model_name]> (environ w) /\
  network (snd (ensure_env_model model_name w)) = network w.
Proof.
  intros Hnul.
  destruct (decide (environ w !! "GROQ_CHAT_MODEL" = Some model_name)) as [Hcur | Hcur].
  - rewrite ensure_env_model_kept by assumption. simpl.
    split; [| reflexivity]. symmetry. now apply insert_id.
  - rewrite ensure_env_model_written by assumption. now split.
Qed.

(** The four ways a run ends. *)
Lemma run_module_outcomes w :
  (py_not (environ w !! "GROQ_API_KEY") = true /\
   run_module w = (1%Z, with_event w (failure_log missing_credential)))
  \/
  (exists key e w1,
      environ w !! "GROQ_API_KEY" = Some key /\ key <> "" /\
      fetch_available_models key (with_event w fetching_log) = (Raise e, w1) /\
      run_module w = (1%Z, with_event w1 (failure_log e)))
  \/
  (exists key available w1,
      environ w !! "GROQ_API_KEY" = Some key /\ key <> "" /\
      fetch_available_models key (with_event w fetching_log) = (Ok available, w1) /\
      fst (select_compatible_model available w1) = Ok None /\
      run_module w = (1%Z, with_event w1 (failure_log (no_compatible_model available))))
  \/
  (exists key available w1 m,
      environ w !! "GROQ_API_KEY" = Some key /\ key <> "" /\
      fetch_available_models key (with_event w fetching_log) = (Ok available, w1) /\
      In m SUPPORTED_MODELS /\ py_in m available = true /\
      fst (select_compatible_model available w1) = Ok (Some m) /\
      run_module w
        = (0%Z, with_event (snd (ensure_env_model m (found w1 m))) success_log)).
Proof.
  destruct (py_not (environ w !! "GROQ_API_KEY")) eqn:Hnot.
  { left. split; [reflexivity | now apply run_module_missing]. }
  right.
  destruct (environ w !! "GROQ_API_KEY") as [key |] eqn:Henv; [| discriminate].
  assert (Hkey : key <> "") by (simpl in Hnot; now apply String.eqb_neq).
  destruct (fetch_available_models key (with_event w fetching_log))
    as [[available | e] w1] eqn:Hfetch.
  - right.
    destruct (select_in_cases SUPPORTED_MODELS available w1)
      as [Hnone | (m & Hsup & Hav & Hsome)].
    + left. exists key, available, w1.
      assert (Hsel : fst (select_compatible_model available w1) = Ok None)
        by (unfold select_compatible_model; now rewrite Hnone).
      repeat split; try assumption.
      unfold run_module.
      now rewrite (main_no_model w key available w1 Henv Hkey Hfetch Hsel).
    + right. exists key, available, w1, m.
      assert (Hsel : fst (select_compatible_model available w1) = Ok (Some m))
        by (unfold select_compatible_model; now rewrite Hsome).
      repeat split; try assumption.
      unfold run_module.
      now rewrite (main_applies w key available w1 m Henv Hkey Hfetch Hsel).
  - left. exists key, e, w1. repeat split; try assumption.
    unfold run_module.
    now rewrite (main_fetch_raises w key e w1 Henv Hkey Hfetch).
Qed.




(** Members of the kept identifiers, by the entries they come from. *)
Lemma In_usable_ids (entries : list json) (v : json) :
  In v (omap usable_id entries) <-> exists entry, In entry entries /\ usable_id entry = Some v.
Proof.
  induction entries as [|entry rest IH]; simpl.
  - split; [tauto | now intros (e & [] & _)].
  - destruct (usable_id entry) as [v'|] eqn:Hentry; simpl; rewrite IH; split.
    + intros [<- | (e & He & Hv)]; [exists entry | exists e]; tauto.
    + intros (e & [<- | He] & Hv); [left; congruence | right; now exists e].
    + intros (e & He & Hv). exists e. tauto.
    + intros (e & [<- | He] & Hv); [congruence | now exists e].
Qed.

End Run_outcomes.

(** X14. A run that ends with exit status 0 had a credential, and leaves
    [GROQ_CHAT_MODEL] set to an entry of [SUPPORTED_MODELS] that is among
    the values the fetcher returned; every other setting keeps the value
    it had when the run started. *)
Theorem successful_run_sets_supported_model (w : World) :
  fst (run_module w) = 0%Z ->
  exists key available m,
    environ w !! "GROQ_API_KEY" = Some key /\ key <> "" /\
    fst (fetch_available_models key (with_event w fetching_log)) = Ok available /\
    In (JStr m) available /\ In m SUPPORTED_MODELS /\
    environ (snd (run_module w)) !! "GROQ_CHAT_MODEL" = Some m /\
    (forall name, name <> "GROQ_CHAT_MODEL" ->
                  environ (snd (run_module w)) !! name = environ w !! name).
Proof.
  intros Hzero.
  destruct (run_module_outcomes w)
    as [[_ Hrun] | [(key & e & w1 & _ & _ & _ & Hrun)
       | [(key & available & w1 & _ & _ & _ & _ & Hrun)
       | (key & available & w1 & m & Henv & Hkey & Hfetch & Hsup & Hav & _ & Hrun)]]];
    try (rewrite Hrun in Hzero; discriminate Hzero).
  exists key, available, m. rewrite Hrun, Hfetch. simpl.
  destruct (ensure_env_model_environ m (found w1 m)
              (supported_models_no_nul m Hsup)) as [Henviron _].
  rewrite Henviron. simpl.
  destruct (fetch_keeps_state key (with_event w fetching_log)) as [Hsame _].
  rewrite Hfetch in Hsame. simpl in Hsame. rewrite Hsame.
  repeat split; try assumption.
  - now apply py_in_In.
  - apply lookup_insert_eq.
  - intros name Hname. apply lookup_insert_ne. congruence.
Qed.

Lemma successful_run_sets_supported_model_witness :
  let w := world_with_match in
  fst (run_module w) = 0%Z /\
  exists key available m,
    environ w !! "GROQ_API_KEY" = Some key /\ key <> "" /\
    fst (fetch_available_models key (with_event w fetching_log)) = Ok available /\
    In (JStr m) available /\ In m SUPPORTED_MODELS /\
    environ (snd (run_module w)) !! "GROQ_CHAT_MODEL" = Some m /\
    (forall name, name <> "GROQ_CHAT_MODEL" ->
                  environ (snd (run_module w)) !! name = environ w !! name).
Proof.
  split; [vm_compute; reflexivity |].
  apply successful_run_sets_supported_model. vm_compute. reflexivity.
Defined.

Section Run_events.

Implicit Types (w : World) (evs : list Event).

Lemma no_applier_event_no_write evs :
  existsb applier_event evs = false -> List.filter is_setenv evs = [].
Proof.
  induction evs as [|ev rest IH]; [reflexivity |].
  simpl. intros Hnone. apply orb_false_iff in Hnone as [Hev Hrest].
  destruct ev; simpl in *; try discriminate Hev; now apply IH.
Qed.


End Run_events.

(** X15. A run that does not end with exit status 0 ends with exit status
    1, writes no setting, and leaves the whole environment as it was when
    the run started. *)
Theorem failed_run_keeps_environment (w : World) :
  fst (run_module w) <> 0%Z ->
  fst (run_module w) = 1%Z /\
  environ (snd (run_module w)) = environ w /\
  exists evs, extends w (snd (run_module w)) evs /\ List.filter is_setenv evs = [].
Proof.
  intros Hfail.
  destruct (run_module_cases w) as [Hzero | [Hone (Henviron & _ & evs & Hext & Hnone)]];
    [contradiction |].
  split; [assumption |]. split; [assumption |].
  exists evs. split; [assumption | now apply no_applier_event_no_write].
Qed.

Lemma failed_run_keeps_environment_witness :
  let w := world_http_error in
  fst (run_module w) <> 0%Z /\
  fst (run_module w) = 1%Z /\
  environ (snd (run_module w)) = environ w /\
  exists evs, extends w (snd (run_module w)) evs /\ List.filter is_setenv evs = [].
Proof.
  split; [vm_compute; discriminate |].
  apply failed_run_keeps_environment. vm_compute. discriminate.
Defined.






(** X19. The order in which the endpoint lists the models plays no role:
    two runs that start from the same environment and receive objects
    whose [data] arrays have the same members end with the same exit
    status and the same environment. *)
Theorem run_independent_of_listing_order
    (w w' : World) (key : string) (members members' : list (string * json))
    (entries entries' : list json) :
  environ w = environ w' ->
  environ w !! "GROQ_API_KEY" = Some key -> key <> "" ->
  network w (request_of key) = ReplyJson (JObj members) ->
  network w' (request_of key) = ReplyJson (JObj members') ->
  default (JArr []) (dict_get "data" members) = JArr entries ->
  default (JArr []) (dict_get "data" members') = JArr entries' ->
  (forall entry, In entry entries <-> In entry entries') ->
  fst (run_module w) = fst (run_module w') /\
  environ (snd (run_module w)) = environ (snd (run_module w')).
Proof.
  intros Hsame Henv Hkey Hnet Hnet' Hdata Hdata' Hmembers.
  assert (Henv' : environ w' !! "GROQ_API_KEY" = Some key) by now rewrite <- Hsame.
  pose proof (fetch_from_array key (with_event w fetching_log) members entries
                Hnet Hdata) as Hfetch.
  pose proof (fetch_from_array key (with_event w' fetching_log) members' entries'
                Hnet' Hdata') as Hfetch'.
  set (w1 := fetched (requested (with_event w fetching_log) key)
                     (omap usable_id entries)) in *.
  set (w1' := fetched (requested (with_event w' fetching_log) key)
                      (omap usable_id entries')) in *.
  assert (Hin : forall v, In v (omap usable_id entries)
                          <-> In v (omap usable_id entries')).
  { intros v. rewrite !In_usable_ids.
    split; intros (entry & Hentry & Hv); exists entry; split;
      try assumption; now apply Hmembers. }
  pose proof (select_in_ext SUPPORTED_MODELS _ _ w1 w1'
                (py_in_same_members _ _ Hin)) as Hsel.
  destruct (select_in_cases SUPPORTED_MODELS (omap usable_id entries) w1)
    as [Hnone | (m & Hsup & _ & Hsome)].
  - assert (H1 : fst (select_compatible_model (omap usable_id entries) w1) = Ok None)
      by (unfold select_compatible_model; now rewrite Hnone).
    assert (H2 : fst (select_compatible_model (omap usable_id entries') w1') = Ok None)
      by (unfold select_compatible_model; rewrite <- Hsel; exact H1).
    unfold run_module.
    rewrite (main_no_model w key _ w1 Henv Hkey Hfetch H1),
            (main_no_model w' key _ w1' Henv' Hkey Hfetch' H2).
    simpl. now split.
  - assert (H1 : fst (select_compatible_model (omap usable_id entries) w1)
                 = Ok (Some m))
      by (unfold select_compatible_model; now rewrite Hsome).
    assert (H2 : fst (select_compatible_model (omap usable_id entries') w1')
                 = Ok (Some m))
      by (unfold select_compatible_model; rewrite <- Hsel; exact H1).
    unfold run_module.
    rewrite (main_applies w key _ w1 m Henv Hkey Hfetch H1),
            (main_applies w' key _ w1' m Henv' Hkey Hfetch' H2).
    simpl. split; [reflexivity |].
    pose proof (supported_models_no_nul m Hsup) as Hnul.
    destruct (ensure_env_model_environ m (found w1 m) Hnul) as [-> _].
    destruct (ensure_env_model_environ m (found w1' m) Hnul) as [-> _].
    simpl. now rewrite Hsame.
Qed.

Lemma run_independent_of_listing_order_witness :
  let w := world_with_match in
  let w' := world_with_match_reversed in
  environ w = environ w' /\
  environ w !! "GROQ_API_KEY" = Some "gsk_key" /\
  network w (request_of "gsk_key") = ReplyJson (JObj sample_members) /\
  network w' (request_of "gsk_key") = ReplyJson (JObj sample_members_reversed) /\
  (forall entry, In entry sample_entries <-> In entry (rev sample_entries)) /\
  fst (run_module w) = fst (run_module w') /\
  environ (snd (run_module w)) = environ (snd (run_module w')).
Proof.
  split; [reflexivity |]. split; [vm_compute; reflexivity |].
  split; [reflexivity |]. split; [reflexivity |].
  split; [intros entry; apply in_rev |].
  apply (run_independent_of_listing_order world_with_match world_with_match_reversed
           "gsk_key" sample_members sample_members_reversed
           sample_entries (rev sample_entries)).
  - reflexivity.
  - vm_compute. reflexivity.
  - discriminate.
  - reflexivity.
  - reflexivity.
  - reflexivity.
  - reflexivity.
  - intros entry. apply in_rev.
Defined.

(** X20. Whatever exception the fetcher raises, [main] lets it through
    unchanged: the selector and the applier do not run, the [__main__]
    handler logs that very exception as the last event of the run, the
    exit status is 1 and the environment is the one the run started
    with. *)
Theorem run_fetch_failure_propagates (w : World) (key : string) (e : Exn) :
  environ w !! "GROQ_API_KEY" = Some key -> key <> "" ->
  fst (fetch_available_models key (with_event w fetching_log)) = Raise e ->
  fst (main w) = Raise e /\
  run_module w
    = (1%Z, with_event (snd (fetch_available_models key (with_event w fetching_log)))
                       (failure_log e)) /\
  environ (snd (run_module w)) = environ w /\
  exists evs, extends w (snd (run_module w)) evs /\
              existsb applier_event evs = false /\
              List.filter is_log evs
                = (fetching_log
                     :: match e with
                        | HTTPError code fp descr => [http_error_log code fp descr]
                        | URLError reason => [url_error_log reason]
                        | _ => []
                        end ++ [failure_log e])%list.
Proof.
  intros Henv Hkey Hraise.
  destruct (fetch_available_models key (with_event w fetching_log))
    as [r w1] eqn:Hfetch.
  simpl in Hraise. subst r.
  pose proof (main_fetch_raises w key e w1 Henv Hkey Hfetch) as Hmain.
  unfold run_module. rewrite Hmain. simpl.
  split; [reflexivity |]. split; [reflexivity |].
  destruct (fetch_keeps_state key (with_event w fetching_log)) as [Hsame _].
  rewrite Hfetch in Hsame. simpl in Hsame. split; [exact Hsame |].
  pose proof (fetch_reply_cases key (with_event w fetching_log)) as Hcases.
  rewrite Hfetch in Hcases. simpl in Hcases.
  destruct (network w (request_of key)) as [code fp descr | reason | | data | other];
    [ | | | | inversion Hcases; subst; destruct other; eexists;
              (split; [unfold extends; simpl; now rewrite <- !app_assoc
                      | split; reflexivity]) ].
  - inversion Hcases; subst. eexists.
    split; [unfold extends; simpl; now rewrite <- !app_assoc | split; reflexivity].
  - inversion Hcases; subst. eexists.
    split; [unfold extends; simpl; now rewrite <- !app_assoc | split; reflexivity].
  - inversion Hcases; subst. eexists.
    split; [unfold extends; simpl; now rewrite <- !app_assoc | split; reflexivity].
  - destruct data as [| b | z | f | s | items | members];
      try (inversion Hcases; subst; eexists;
           split; [unfold extends; simpl; now rewrite <- !app_assoc
                  | split; reflexivity]).
    destruct (default (JArr []) (dict_get "data" members));
      try discriminate Hcases;
      inversion Hcases; subst; eexists;
      (split; [unfold extends; simpl; now rewrite <- !app_assoc
              | split; reflexivity]).
Qed.

Lemma run_fetch_failure_propagates_witness :
  let w := world_of [("GROQ_API_KEY", "gsk_key")] ReplyMalformed in
  environ w !! "GROQ_API_KEY" = Some "gsk_key" /\
  fst (fetch_available_models "gsk_key" (with_event w fetching_log))
    = Raise JSONDecodeError /\
  fst (main w) = Raise JSONDecodeError /\
  fst (run_module w) = 1%Z.
Proof.
  split; [vm_compute; reflexivity |]. split; [reflexivity |].
  destruct (run_fetch_failure_propagates
              (world_of [("GROQ_API_KEY", "gsk_key")] ReplyMalformed)
              "gsk_key" JSONDecodeError) as (Hmain & Hrun & _).
  - vm_compute. reflexivity.
  - discriminate.
  - reflexivity.
  - split; [exact Hmain | now rewrite Hrun].
Defined.
